(** * ChatInterface: the chat session of outward-bound-chat-fe

    A shallow embedding of [ChatInterface] (a React function component) and
    of the two asynchronous functions it defines, [wakeUpServer] and
    [handleSendMessage].  The repository holds two revisions of the
    component; the later one is embedded.  The earlier one has the same
    [handleSendMessage], a constant [API_URL] and no [wakeUpServer].

    Modelling choices, all of them about the JavaScript run time and none
    about the component:

    - a JavaScript string is its sequence of UTF-16 code units;
    - a JavaScript value is a [JsValue]; the values [response.json()] can
      resolve with are the JSON ones, and a number is an IEEE 754 double;
    - the four [useState] cells are fields of one record, [Session], next to
      what the component does to the outside: the [fetch] calls it has
      issued, the lines it has written to the console, and the [async]
      calls that are suspended at an [await];
    - the handlers read the cells of the latest render (React re-renders
      before it dispatches the next event), and [setMessages] is always
      called with an updater function, which React applies to the cell's
      current content;
    - an [async] function is split at its first [await]: the part that runs
      with the call, and the part that runs when the awaited promise has
      settled.  [handleSendMessage] touches no cell between
      [await fetch(...)] and [await response.json()], so how both settle is
      delivered to its second part together, as a [Settled Response] whose
      [json] field says how [response.json()] settles;
    - [new Date()] reads a clock: the time is an argument of the part of the
      function that reads it. *)

From Stdlib Require Import List Bool NArith ZArith Ascii String Floats Lia Sorted.
Import ListNotations.

Set Implicit Arguments.

(** ** JavaScript strings *)

Module JsString.

(** A string is a sequence of UTF-16 code units. *)
Definition t : Type := list N.

Definition empty : t := [].

(** The code units of an ASCII literal of the source. *)
Fixpoint lit (s : string) : t :=
  match s with
  | EmptyString => []
  | String c s' => N_of_ascii c :: lit s'
  end.

Definition eqb (a b : t) : bool :=
  if list_eq_dec N.eq_dec a b then true else false.

Definition concat (a b : t) : t := a ++ b.

(** ECMAScript WhiteSpace and LineTerminator code points, the ones
    [String.prototype.trim] strips.  All of them are in the Basic
    Multilingual Plane, so each is one code unit. *)
Definition is_white_space (c : N) : bool :=
  ((c =? 0x0009) || (c =? 0x000A) || (c =? 0x000B) || (c =? 0x000C)
   || (c =? 0x000D) || (c =? 0x0020) || (c =? 0x00A0) || (c =? 0x1680)
   || ((0x2000 <=? c) && (c <=? 0x200A))
   || (c =? 0x2028) || (c =? 0x2029) || (c =? 0x202F) || (c =? 0x205F)
   || (c =? 0x3000) || (c =? 0xFEFF))%N.

Fixpoint trimStart (s : t) : t :=
  match s with
  | [] => []
  | c :: s' => if is_white_space c then trimStart s' else s
  end.

Definition trimEnd (s : t) : t := rev (trimStart (rev s)).

(** [s.trim()] *)
Definition trim (s : t) : t := trimEnd (trimStart s).

(** ToBoolean of a string: only the empty string is falsy. *)
Definition to_boolean (s : t) : bool :=
  match s with
  | [] => false
  | _ :: _ => true
  end.

End JsString.

Definition jsstring : Type := JsString.t.
Notation "'js' s" := (JsString.lit s%string) (at level 9, s at level 0).
Arguments JsString.lit : simpl never.

(** ** JavaScript values *)

(** The values the component handles: [undefined] (what reading a missing
    property gives) and the values of JSON.  An object is the list of its
    own properties; [JSON.parse] builds objects whose keys are distinct. *)
#[local] Unset Elimination Schemes.
Inductive JsValue : Type :=
| JUndefined
| JNull
| JBool (b : bool)
| JNumber (x : float)
| JString (s : jsstring)
| JArray (items : list JsValue)
| JObject (props : list (jsstring * JsValue)).
#[local] Set Elimination Schemes.

(** What a [throw] or a rejected promise carries: an [Error] object, by the
    name of its constructor and its message. *)
Record JsError : Type := mkError {
  error_name : jsstring;
  error_message : jsstring
}.

Module Js.

(** ToBoolean: [undefined], [null], [false], [+0], [-0], [NaN] and the
    empty string are falsy, everything else (every object and array
    included) is truthy. *)
Definition to_boolean (v : JsValue) : bool :=
  match v with
  | JUndefined => false
  | JNull => false
  | JBool b => b
  | JNumber x => negb (PrimFloat.eqb x 0%float || PrimFloat.is_nan x)
  | JString s => JsString.to_boolean s
  | JArray _ => true
  | JObject _ => true
  end.

(** [a || b] on values: [a] when it is truthy, else [b]. *)
Definition or (a b : JsValue) : JsValue :=
  if to_boolean a then a else b.

Fixpoint lookup (key : jsstring) (props : list (jsstring * JsValue))
  : option JsValue :=
  match props with
  | [] => None
  | (k, v) :: rest => if JsString.eqb k key then Some v else lookup key rest
  end.

(** Does the value have a property [key] of its own?  Primitives have
    none called [answer], and neither have the prototypes of objects,
    arrays, strings, numbers and booleans. *)
Definition has_field (key : jsstring) (v : JsValue) : bool :=
  match v with
  | JObject props =>
      match lookup key props with Some _ => true | None => false end
  | _ => false
  end.

(** [new Error(message)] *)
Definition Error (message : jsstring) : JsError :=
  mkError (js "Error") message.

(** The TypeError of a property read on [undefined] or [null]. *)
Definition TypeError_read (key : jsstring) (v : JsValue) : JsError :=
  mkError (js "TypeError")
    (JsString.concat (js "Cannot read properties of ")
       (JsString.concat
          (match v with JNull => js "null" | _ => js "undefined" end)
          (JsString.concat (js " (reading '")
             (JsString.concat key (js "')"))))).

(** [undefined] and [null], the two values without properties. *)
Definition is_nullish (v : JsValue) : bool :=
  match v with
  | JUndefined | JNull => true
  | _ => false
  end.

(** [v.key], for a key that no prototype defines: a TypeError on
    [undefined] and [null], the own property of an object, and
    [undefined] in every other case. *)
Definition get (v : JsValue) (key : jsstring) : JsError + JsValue :=
  match v with
  | JUndefined | JNull => inl (TypeError_read key v)
  | JObject props =>
      match lookup key props with
      | Some x => inr x
      | None => inr JUndefined
      end
  | _ => inr JUndefined
  end.

End Js.

(** ** Promises, the network and the console *)

(** How a promise settles. *)
Inductive Settled (A : Type) : Type :=
| Fulfilled (value : A)
| Rejected (reason : JsError).
Arguments Rejected {A} reason.

(** What the component reads of a [Response]: its status ([response.ok] is
    true exactly for a status from 200 to 299) and how [response.json()]
    settles (it rejects when the body is not JSON text). *)
Record Response : Type := mkResponse {
  status : Z;
  json : Settled JsValue
}.

Definition ok (response : Response) : bool :=
  ((200 <=? status response) && (status response <=? 299))%Z.

(** The body of a request: the text [JSON.stringify] gives for a value,
    kept as that value. *)
Inductive Body : Type :=
| JSON_stringify (v : JsValue).

(** The second argument of [fetch]. *)
Record RequestInit : Type := mkInit {
  method : jsstring;
  headers : list (jsstring * jsstring);
  body : Body
}.

(** One call of [fetch]: the URL and the options, if any (without options
    the request is a GET with no body). *)
Record Request : Type := mkRequest {
  url : jsstring;
  init : option RequestInit
}.

Definition request_method (r : Request) : jsstring :=
  match init r with
  | Some i => method i
  | None => js "GET"
  end.

Inductive ConsoleLine : Type :=
| console_log_line (text : jsstring)
| console_error_line (label : jsstring) (error : JsError).

(** ** The data of the component *)

Inductive Sender : Type := user | ai.

Definition Sender_eqb (a b : Sender) : bool :=
  match a, b with
  | user, user | ai, ai => true
  | _, _ => false
  end.

(** A [Date], in milliseconds since the epoch. *)
Definition Date : Type := Z.

(** [interface Message].  The type checker sees [text] as a string, but
    [data.answer] is of type [any]: at run time the field holds whatever
    value the response carried. *)
Record Message : Type := mkMessage {
  text : JsValue;
  sender : Sender;
  timestamp : Date
}.

(** The four state cells of the component, and its trace: the requests it
    has issued (oldest first), the console, and how many calls of each
    [async] function are suspended at their [await]. *)
Record Session : Type := mkSession {
  messages : list Message;
  inputMessage : jsstring;
  isLoading : bool;
  isServerAwake : bool;
  fetched : list Request;
  console : list ConsoleLine;
  awaiting_wakeUpServer : nat;
  awaiting_handleSendMessage : nat
}.

(** ** A monad for handler code: state and exceptions *)

Definition M (A : Type) : Type := Session -> (JsError + A) * Session.

Definition ret {A} (a : A) : M A := fun s => (inr a, s).

Definition bind {A B} (m : M A) (k : A -> M B) : M B :=
  fun s =>
    match m s with
    | (inr a, s') => k a s'
    | (inl e, s') => (inl e, s')
    end.

Definition throw {A} (e : JsError) : M A := fun s => (inl e, s).

Notation "x <- m ;; k" := (bind m (fun x => k))
  (at level 61, m at next level, right associativity).
Notation "m ;; k" := (bind m (fun _ => k))
  (at level 61, right associativity).

(** [await p], once [p] has settled. *)
Definition await {A} (p : Settled A) : M A :=
  match p with
  | Fulfilled a => ret a
  | Rejected e => throw e
  end.

(** An operation that may throw, run in the monad. *)
Definition lift {A} (r : JsError + A) : M A :=
  match r with
  | inr a => ret a
  | inl e => throw e
  end.

(** [try { block } catch (error) { handler error }] *)
Definition try_catch {A} (block : M A) (handler : JsError -> M A) : M A :=
  fun s =>
    match block s with
    | (inr a, s') => (inr a, s')
    | (inl e, s') => handler e s'
    end.

(** [try { block } catch (error) { handler error } finally { finalizer }]:
    the finalizer runs in every case; what it throws replaces the result. *)
Definition try_catch_finally {A} (block : M A) (handler : JsError -> M A)
    (finalizer : M unit) : M A :=
  fun s =>
    let (r, s') := try_catch block handler s in
    match finalizer s' with
    | (inr _, s'') => (r, s'')
    | (inl e, s'') => (inl e, s'')
    end.

(** The setters of [useState]. *)
Definition setMessages (f : list Message -> list Message) : M unit :=
  fun s =>
    (inr tt,
     mkSession (f (messages s)) (inputMessage s) (isLoading s)
       (isServerAwake s) (fetched s) (console s)
       (awaiting_wakeUpServer s) (awaiting_handleSendMessage s)).

Definition setInputMessage (v : jsstring) : M unit :=
  fun s =>
    (inr tt,
     mkSession (messages s) v (isLoading s)
       (isServerAwake s) (fetched s) (console s)
       (awaiting_wakeUpServer s) (awaiting_handleSendMessage s)).

Definition setIsLoading (v : bool) : M unit :=
  fun s =>
    (inr tt,
     mkSession (messages s) (inputMessage s) v
       (isServerAwake s) (fetched s) (console s)
       (awaiting_wakeUpServer s) (awaiting_handleSendMessage s)).

Definition setIsServerAwake (v : bool) : M unit :=
  fun s =>
    (inr tt,
     mkSession (messages s) (inputMessage s) (isLoading s)
       v (fetched s) (console s)
       (awaiting_wakeUpServer s) (awaiting_handleSendMessage s)).

(** [fetch(url, init)]: the request leaves; the promise is awaited by the
    caller. *)
Definition fetch (r : Request) : M unit :=
  fun s =>
    (inr tt,
     mkSession (messages s) (inputMessage s) (isLoading s)
       (isServerAwake s) (fetched s ++ [r]) (console s)
       (awaiting_wakeUpServer s) (awaiting_handleSendMessage s)).

Definition console_log (line : jsstring) : M unit :=
  fun s =>
    (inr tt,
     mkSession (messages s) (inputMessage s) (isLoading s)
       (isServerAwake s) (fetched s) (console s ++ [console_log_line line])
       (awaiting_wakeUpServer s) (awaiting_handleSendMessage s)).

Definition console_error (label : jsstring) (error : JsError) : M unit :=
  fun s =>
    (inr tt,
     mkSession (messages s) (inputMessage s) (isLoading s)
       (isServerAwake s) (fetched s)
       (console s ++ [console_error_line label error])
       (awaiting_wakeUpServer s) (awaiting_handleSendMessage s)).

(** Bookkeeping of suspended calls. *)
Definition set_awaiting (w h : nat) : M unit :=
  fun s =>
    (inr tt,
     mkSession (messages s) (inputMessage s) (isLoading s)
       (isServerAwake s) (fetched s) (console s) w h).

Definition suspend_wakeUpServer : M unit :=
  fun s =>
    set_awaiting (S (awaiting_wakeUpServer s)) (awaiting_handleSendMessage s) s.

Definition suspend_handleSendMessage : M unit :=
  fun s =>
    set_awaiting (awaiting_wakeUpServer s) (S (awaiting_handleSendMessage s)) s.

(** ** The component *)

Section ChatInterface.

(** [process.env.REACT_APP_API_URL]: a string, or [None] when the variable
    is not set. *)
Variable REACT_APP_API_URL : option jsstring.

(** [process.env.REACT_APP_API_URL || 'http://localhost:3001'].  (The
    earlier revision of the file has the constant alone, which is the
    case [None].) *)
Definition API_URL : jsstring :=
  match REACT_APP_API_URL with
  | Some v => if JsString.to_boolean v then v else js "http://localhost:3001"
  | None => js "http://localhost:3001"
  end.

(** The cells after [useState([])], [useState('')], [useState(false)],
    [useState(false)]; nothing sent, nothing logged. *)
Definition initial : Session :=
  mkSession [] (js "") false false [] [] 0 0.

(** *** [wakeUpServer] *)

Definition ping_request : Request :=
  mkRequest (JsString.concat API_URL (js "/ping")) None.

(** Up to [await fetch(`${API_URL}/ping`)]. *)
Definition wakeUpServer : M unit :=
  fetch ping_request ;;
  suspend_wakeUpServer.

(** From that [await] on, [response] being how the promise settled. *)
Definition wakeUpServer_resume (response : Settled Response) : M unit :=
  try_catch
    (response <- await response ;;
     if ok response then
       setIsServerAwake true ;;
       console_log (js "Server is awake")
     else ret tt)
    (fun error =>
       console_log (js "Server is starting up, might take a minute...")).

(** [useEffect(() => { ...; wakeUpServer(); }, [])]: run once, after the
    first render. *)
Definition useEffect_mount : M unit := wakeUpServer.

(** *** [handleSendMessage] *)

Definition chat_request (inputMessage : jsstring) : Request :=
  mkRequest (JsString.concat API_URL (js "/chat"))
    (Some (mkInit (js "POST")
             [(js "Content-Type", js "application/json")]
             (JSON_stringify
                (JObject [(js "question", JString inputMessage)])))).

(** Up to [await fetch(...)].  [inputMessage] and [isLoading] are the
    constants of the render the handler belongs to: [setInputMessage('')]
    does not change what [inputMessage] denotes in the body. *)
Definition handleSendMessage (inputMessage : jsstring) (isLoading : bool)
    (now : Date) : M unit :=
  if negb (JsString.to_boolean (JsString.trim inputMessage)) || isLoading
  then ret tt
  else
    let newMessage := mkMessage (JString inputMessage) user now in
    setMessages (fun prev => prev ++ [newMessage]) ;;
    setInputMessage (js "") ;;
    setIsLoading true ;;
    fetch (chat_request inputMessage) ;;
    suspend_handleSendMessage.

(** From [await fetch(...)] on: the rest of the [try] block, the [catch]
    and the [finally]. *)
Definition handleSendMessage_resume (response : Settled Response)
    (now : Date) : M unit :=
  try_catch_finally
    (response <- await response ;;
     (if negb (ok response)
      then throw (Js.Error (js "Failed to get response from the server"))
      else ret tt) ;;
     data <- await (json response) ;;
     answer <- lift (Js.get data (js "answer")) ;;
     let aiResponse :=
       mkMessage
         (Js.or answer (JString (js "Sorry, I could not process your request.")))
         ai now in
     setMessages (fun prev => prev ++ [aiResponse]))
    (fun error =>
       console_error (js "Error:") error ;;
       let errorMessage :=
         mkMessage
           (JString (js "Sorry, there was an error processing your request. Please try again."))
           ai now in
       setMessages (fun prev => prev ++ [errorMessage]))
    (setIsLoading false).

(** *** Events *)

(** What can happen to a mounted component. *)
Inductive Event : Type :=
| Change (value : jsstring)
    (** [onChange] of the text field and [onClick] of the three
        suggestions: [setInputMessage(value)] *)
| Send (now : Date)
    (** [onClick] of the send button, Enter in the text field:
        [handleSendMessage()] *)
| ChatSettles (response : Settled Response) (now : Date)
    (** the request of a suspended [handleSendMessage] has settled *)
| PingSettles (response : Settled Response)
    (** the request of the suspended [wakeUpServer] has settled *).

(** One event: the result of the handler (what an [async] function
    throws rejects its promise) and the session after it; [None] when a
    request settles that nobody awaits. *)
Definition dispatch (e : Event) (s : Session)
  : option ((JsError + unit) * Session) :=
  match e with
  | Change value => Some (setInputMessage value s)
  | Send now => Some (handleSendMessage (inputMessage s) (isLoading s) now s)
  | ChatSettles response now =>
      match awaiting_handleSendMessage s with
      | O => None
      | S n =>
          Some ((set_awaiting (awaiting_wakeUpServer s) n ;;
                 handleSendMessage_resume response now) s)
      end
  | PingSettles response =>
      match awaiting_wakeUpServer s with
      | O => None
      | S n =>
          Some ((set_awaiting n (awaiting_handleSendMessage s) ;;
                 wakeUpServer_resume response) s)
      end
  end.

Definition step (e : Event) (s : Session) : option Session :=
  option_map snd (dispatch e s).

Fixpoint run (events : list Event) (s : Session) : option Session :=
  match events with
  | [] => Some s
  | e :: rest =>
      match step e s with
      | Some s' => run rest s'
      | None => None
      end
  end.

(** The session once the component is mounted. *)
Definition mounted : Session := snd (useEffect_mount initial).

Definition reachable (s : Session) : Prop :=
  exists events, run events mounted = Some s.

(** *** Observations on a transcript *)

Definition senders (ms : list Message) : list Sender := map sender ms.

Definition count_sender (who : Sender) (ms : list Message) : nat :=
  List.length (filter (fun m => Sender_eqb (sender m) who) ms).

(** [user, ai, user, ai, ...]: [n] complete exchanges. *)
Fixpoint exchanges (n : nat) : list Sender :=
  match n with
  | O => []
  | S n' => user :: ai :: exchanges n'
  end.

Definition is_ping (r : Request) : bool :=
  JsString.eqb (url r) (JsString.concat API_URL (js "/ping")).

Definition ping_ok (response : Settled Response) : bool :=
  match response with
  | Fulfilled r => ok r
  | Rejected _ => false
  end.

(** The ways the probe's request has settled in a run of events. *)
Fixpoint ping_outcomes (events : list Event) : list (Settled Response) :=
  match events with
  | [] => []
  | PingSettles r :: rest => r :: ping_outcomes rest
  | _ :: rest => ping_outcomes rest
  end.

(** Events other than the settling of the chat request. *)
Definition not_ChatSettles (e : Event) : bool :=
  match e with
  | ChatSettles _ _ => false
  | _ => true
  end.

(** The two fixed notices. *)
Definition fallback_notice : JsValue :=
  JString (js "Sorry, I could not process your request.").

Definition error_notice : JsValue :=
  JString (js "Sorry, there was an error processing your request. Please try again.").

(** The guard of [handleSendMessage] lets the call through. *)
Definition passes_guard (inputMessage : jsstring) (isLoading : bool) : Prop :=
  JsString.trim inputMessage <> JsString.empty /\ isLoading = false.

(** The request did not bring a 2xx response: the promise of [fetch]
    rejected (a transport failure) or the status is outside 200..299. *)
Definition request_failed (response : Settled Response) : Prop :=
  match response with
  | Rejected _ => True
  | Fulfilled r => ok r = false
  end.

(** What [catch (error)] receives when the request failed. *)
Definition failure_of (response : Settled Response) : JsError :=
  match response with
  | Rejected e => e
  | Fulfilled _ => Js.Error (js "Failed to get response from the server")
  end.

(** *** Session invariants *)

(** No request in flight: the transcript is a sequence of complete
    exchanges. *)
Definition idle (s : Session) : Prop :=
  isLoading s = false /\ awaiting_handleSendMessage s = 0 /\
  exists n, senders (messages s) = exchanges n.

(** One request in flight: the transcript ends with the question that
    was sent. *)
Definition waiting (s : Session) : Prop :=
  isLoading s = true /\ awaiting_handleSendMessage s = 1 /\
  exists n, senders (messages s) = exchanges n ++ [user].

Definition consistent (s : Session) : Prop := idle s \/ waiting s.

(** *** Scenarios *)

Definition question : jsstring :=
  js "What kind of base layers should I bring?".

(** Mounted, and the question is in the text field. *)
Definition typed : Session :=
  mkSession [] question false false [ping_request] [] 1 0.

(** The question has been sent at time 1000. *)
Definition asked : Session :=
  mkSession [mkMessage (JString question) user 1000%Z] (js "") true false
    [ping_request; chat_request question] [] 1 1.

(** 200 with [{ "answer": "Bring wool or synthetic layers." }] *)
Definition answer_response : Response :=
  mkResponse 200%Z
    (Fulfilled
       (JObject [(js "answer", JString (js "Bring wool or synthetic layers."))])).

(** 200 with [{}] *)
Definition empty_object_response : Response :=
  mkResponse 200%Z (Fulfilled (JObject [])).

(** 200 with [null] *)
Definition null_response : Response :=
  mkResponse 200%Z (Fulfilled JNull).

(** 200 with [{ "answer": "" }] *)
Definition empty_answer_response : Response :=
  mkResponse 200%Z (Fulfilled (JObject [(js "answer", JString (js ""))])).

(** The rejection of [fetch] when the network is down. *)
Definition network_error : Settled Response :=
  Rejected (mkError (js "TypeError") (js "Failed to fetch")).

(** After [asked]: the user picked a suggestion and pressed Enter again,
    and the probe failed. *)
Definition asked_and_probed : Session :=
  mkSession [mkMessage (JString question) user 1000%Z]
    (js "Do I need a rain coat?") true false
    [ping_request; chat_request question]
    [console_log_line (js "Server is starting up, might take a minute...")]
    0 1.

(** Mounted, and the probe got its 2xx response. *)
Definition awake : Session :=
  mkSession [] (js "") false true [ping_request]
    [console_log_line (js "Server is awake")] 0 0.

(** *** The other handlers *)

(** The questions of the three suggestion buttons; [onClick] of a button
    is [setInputMessage(q)], the event [Change q]. *)
Definition suggestions : list jsstring :=
  [js "What kind of base layers should I bring?";
   js "Do I need a rain coat?";
   js "What can help me prepare for my course?"].

(** What [onKeyPress] reads of its event. *)
Record KeyboardEvent : Type := mkKeyboardEvent {
  key : jsstring;
  shiftKey : bool
}.

(** [onKeyPress] of the text field.  The result says whether
    [e.preventDefault()] was called.  [handleSendMessage()] is not awaited:
    its first part runs with the call. *)
Definition onKeyPress (e : KeyboardEvent) (inputMessage : jsstring)
    (isLoading : bool) (now : Date) : M bool :=
  if JsString.eqb (key e) (js "Enter") && negb (shiftKey e)
  then handleSendMessage inputMessage isLoading now ;; ret true
  else ret false.

(** *** What the component renders *)

(** [date.toLocaleTimeString()]: the text depends on the locale of the
    browser. *)
Variable toLocaleTimeString : Date -> jsstring.

(** [primary] of a list item: the text through [ReactMarkdown], or the text
    as it is. *)
Inductive Primary : Type :=
| ReactMarkdown (children : JsValue)
| plain (content : JsValue).

(** One [ListItem] of the transcript, by the properties that depend on the
    message. *)
Record ListItemView : Type := mkListItem {
  item_key : nat;
  justifyContent : jsstring;
  backgroundColor : jsstring;
  color : jsstring;
  primary : Primary;
  secondary : jsstring
}.

Definition render_message (message : Message) (index : nat) : ListItemView :=
  mkListItem index
    (if Sender_eqb (sender message) user then js "flex-end" else js "flex-start")
    (if Sender_eqb (sender message) user then js "primary.light" else js "grey.100")
    (if Sender_eqb (sender message) user then js "white" else js "text.primary")
    (if Sender_eqb (sender message) ai
     then ReactMarkdown (text message)
     else plain (text message))
    (toLocaleTimeString (timestamp message)).

(** [array.map((element, index) => ...)], counting from [index]. *)
Fixpoint map_from (A B : Type) (index : nat) (f : A -> nat -> B)
    (l : list A) : list B :=
  match l with
  | [] => []
  | x :: rest => f x index :: map_from (S index) f rest
  end.

Inductive Icon : Type := CircularProgress | SendIcon.

(** The parts of the rendered tree that depend on the cells. *)
Record View : Type := mkView {
  list_items : list ListItemView;
  waking_up_notice : bool;
  textField_value : jsstring;
  textField_disabled : bool;
  sendButton_disabled : bool;
  sendButton_icon : Icon
}.

Definition render (s : Session) : View :=
  mkView
    (map_from 0 render_message (messages s))
    (negb (isServerAwake s))
    (inputMessage s)
    (isLoading s)
    (negb (JsString.to_boolean (JsString.trim (inputMessage s))) || isLoading s)
    (if isLoading s then CircularProgress else SendIcon).

(** *** More observations on a session *)

(** The texts of the messages of the user. *)
Fixpoint user_questions (ms : list Message) : list jsstring :=
  match ms with
  | [] => []
  | m :: rest =>
      match sender m, text m with
      | user, JString v => v :: user_questions rest
      | _, _ => user_questions rest
      end
  end.

Definition not_PingSettles (e : Event) : bool :=
  match e with
  | PingSettles _ => false
  | _ => true
  end.

(** The times at which the events of a run read the clock. *)
Fixpoint clock (events : list Event) : list Date :=
  match events with
  | [] => []
  | Send now :: rest => now :: clock rest
  | ChatSettles _ now :: rest => now :: clock rest
  | _ :: rest => clock rest
  end.

(** A message that shows something: its text is truthy, and the text of a
    message of the user is a string that does not trim to nothing. *)
Definition presentable (m : Message) : Prop :=
  Js.to_boolean (text m) = true
  /\ (sender m = user ->
      exists v, text m = JString v /\ JsString.trim v <> JsString.empty).

(** The cells and the trace that [handleSendMessage] works on. *)
Definition chat_side (s : Session)
  : list Message * jsstring * bool * list Request * nat :=
  (messages s, inputMessage s, isLoading s, fetched s,
   awaiting_handleSendMessage s).

(** After [asked]: the answer has arrived at time 2000. *)
Definition answered : Session :=
  mkSession
    [mkMessage (JString question) user 1000%Z;
     mkMessage (JString (js "Bring wool or synthetic layers.")) ai 2000%Z]
    (js "") false false
    [ping_request; chat_request question] [] 1 0.

(** 200 with a body that is not JSON. *)
Definition html_response : Response :=
  mkResponse 200%Z
    (Rejected (mkError (js "SyntaxError")
                 (js "Unexpected token < in JSON at position 0"))).

(** ** Properties of the handlers *)

Lemma to_boolean_trim (v : jsstring) :
  JsString.to_boolean v = true <-> v <> JsString.empty.
Proof.
  unfold JsString.empty.
  destruct v; simpl; split; intro H; try easy.
Qed.

Lemma guard_passes inputMessage isLoading :
  passes_guard inputMessage isLoading ->
  negb (JsString.to_boolean (JsString.trim inputMessage)) || isLoading = false.
Proof.
  intros [Ht Hl]. apply to_boolean_trim in Ht. now rewrite Ht, Hl.
Qed.

Lemma guard_blocks inputMessage isLoading :
  isLoading = true \/ JsString.trim inputMessage = JsString.empty ->
  negb (JsString.to_boolean (JsString.trim inputMessage)) || isLoading = true.
Proof.
  intros [-> | ->].
  - apply orb_true_r.
  - reflexivity.
Qed.

(** The second part of [handleSendMessage] always returns normally, adds
    one message of the assistant at the end of the transcript, clears
    [isLoading], and leaves the other cells and the network alone. *)
Lemma handleSendMessage_resume_shape response now s :
  exists reply log,
    handleSendMessage_resume response now s =
      (inr tt,
       mkSession (messages s ++ [reply]) (inputMessage s) false
         (isServerAwake s) (fetched s) (console s ++ log)
         (awaiting_wakeUpServer s) (awaiting_handleSendMessage s))
    /\ sender reply = ai /\ timestamp reply = now.
Proof.
  unfold handleSendMessage_resume, try_catch_finally, try_catch.
  destruct response as [[st [data | e]] | e]; unfold bind, await; simpl.
  - destruct (ok _); simpl.
    + destruct (Js.get data (js "answer")) as [e | answer]; simpl.
      * eexists _, [_]. repeat split.
      * eexists _, []. rewrite app_nil_r. repeat split.
    + eexists _, [_]. repeat split.
  - destruct (ok _); simpl; eexists _, [_]; repeat split.
  - eexists _, [_]. repeat split.
Qed.

(** When the request failed, the reply is the error notice and the
    failure goes to [console.error]. *)
Lemma handleSendMessage_resume_failed response now s :
  request_failed response ->
  handleSendMessage_resume response now s =
    (inr tt,
     mkSession (messages s ++ [mkMessage error_notice ai now])
       (inputMessage s) false (isServerAwake s) (fetched s)
       (console s ++ [console_error_line (js "Error:") (failure_of response)])
       (awaiting_wakeUpServer s) (awaiting_handleSendMessage s)).
Proof.
  unfold handleSendMessage_resume, try_catch_finally, try_catch.
  destruct response as [r | e]; unfold bind, await; simpl.
  - intros ->. reflexivity.
  - reflexivity.
Qed.

(** When the response is 2xx and its body is JSON on which [.answer] can
    be read, the reply is [answer || fallback]. *)
Lemma handleSendMessage_resume_answered response now s data answer :
  ok response = true ->
  json response = Fulfilled data ->
  Js.get data (js "answer") = inr answer ->
  handleSendMessage_resume (Fulfilled response) now s =
    (inr tt,
     mkSession
       (messages s ++ [mkMessage (Js.or answer fallback_notice) ai now])
       (inputMessage s) false (isServerAwake s) (fetched s) (console s)
       (awaiting_wakeUpServer s) (awaiting_handleSendMessage s)).
Proof.
  intros Hok Hjson Hget.
  unfold handleSendMessage_resume, try_catch_finally, try_catch.
  unfold bind, await; simpl.
  rewrite Hok, Hjson; simpl. rewrite Hget; simpl. reflexivity.
Qed.

(** The second part of [wakeUpServer] always returns normally; it can
    only raise [isServerAwake], and only on a 2xx response. *)
Lemma wakeUpServer_resume_shape response s :
  exists log,
    wakeUpServer_resume response s =
      (inr tt,
       mkSession (messages s) (inputMessage s) (isLoading s)
         (isServerAwake s || ping_ok response) (fetched s) (console s ++ log)
         (awaiting_wakeUpServer s) (awaiting_handleSendMessage s)).
Proof.
  unfold wakeUpServer_resume, try_catch.
  destruct response as [r | e]; unfold bind, await; simpl.
  - destruct (ok r); simpl.
    + exists [console_log_line (js "Server is awake")].
      now rewrite orb_true_r.
    + exists []. now rewrite orb_false_r, app_nil_r; destruct s.
  - eexists [_]. now rewrite orb_false_r.
Qed.

(** ** Properties of the events *)

(** What one event does to the session. *)
Lemma step_inv e s s' :
  step e s = Some s' ->
  match e with
  | Change value =>
      s' = mkSession (messages s) value (isLoading s) (isServerAwake s)
             (fetched s) (console s)
             (awaiting_wakeUpServer s) (awaiting_handleSendMessage s)
  | Send now =>
      ((isLoading s = true \/ JsString.trim (inputMessage s) = JsString.empty)
       /\ s' = s)
      \/
      (passes_guard (inputMessage s) (isLoading s)
       /\ s' = mkSession
                (messages s ++ [mkMessage (JString (inputMessage s)) user now])
                (js "") true (isServerAwake s)
                (fetched s ++ [chat_request (inputMessage s)]) (console s)
                (awaiting_wakeUpServer s) (S (awaiting_handleSendMessage s)))
  | ChatSettles response now =>
      exists n reply log,
        awaiting_handleSendMessage s = S n
        /\ dispatch e s = Some (inr tt, s')
        /\ s' = mkSession (messages s ++ [reply]) (inputMessage s) false
                  (isServerAwake s) (fetched s) (console s ++ log)
                  (awaiting_wakeUpServer s) n
        /\ sender reply = ai /\ timestamp reply = now
  | PingSettles response =>
      exists n log,
        awaiting_wakeUpServer s = S n
        /\ s' = mkSession (messages s) (inputMessage s) (isLoading s)
                  (isServerAwake s || ping_ok response) (fetched s)
                  (console s ++ log)
                  n (awaiting_handleSendMessage s)
  end.
Proof.
  unfold step. destruct e as [value | now | response now | response]; simpl.
  - intros [= <-]. reflexivity.
  - unfold handleSendMessage.
    destruct (negb _ || _) eqn:G; simpl; intros [= <-].
    + left. split; [|reflexivity].
      apply orb_true_iff in G as [G | G]; [right | now left].
      apply negb_true_iff in G.
      now destruct (JsString.trim (inputMessage s)).
    + right. split; [|reflexivity].
      apply orb_false_iff in G as [G1 G2].
      apply negb_false_iff, to_boolean_trim in G1. now split.
  - destruct (awaiting_handleSendMessage s) as [|n]; [discriminate|].
    unfold bind. simpl.
    destruct (handleSendMessage_resume_shape response now
                (mkSession (messages s) (inputMessage s) (isLoading s)
                   (isServerAwake s) (fetched s) (console s)
                   (awaiting_wakeUpServer s) n))
      as (reply & log & E & Hs & Ht).
    rewrite E. simpl. intros [= <-].
    exists n, reply, log. now repeat split.
  - destruct (awaiting_wakeUpServer s) as [|n]; [discriminate|].
    unfold bind. simpl.
    destruct (wakeUpServer_resume_shape response
                (mkSession (messages s) (inputMessage s) (isLoading s)
                   (isServerAwake s) (fetched s) (console s)
                   n (awaiting_handleSendMessage s)))
      as (log & E).
    rewrite E. simpl. intros [= <-].
    now exists n, log.
Qed.

Lemma exchanges_snoc n : exchanges (S n) = exchanges n ++ [user; ai].
Proof.
  induction n as [|n IH]; [reflexivity|].
  simpl in *. now rewrite <- IH.
Qed.

Lemma last_exchanges n : last (exchanges n) ai = ai.
Proof.
  induction n as [|n IH]; [reflexivity|].
  simpl. now destruct (exchanges n).
Qed.

Lemma mounted_idle : idle mounted.
Proof. repeat split. now exists 0. Qed.

(** Every event keeps the session consistent: a message of the user
    goes with a request in flight, a reply ends it. *)
Lemma step_consistent e s s' :
  consistent s -> step e s = Some s' -> consistent s'.
Proof.
  intros C H. apply step_inv in H.
  destruct e as [value | now | response now | response].
  - subst s'. exact C.
  - destruct H as [[_ ->] | [[_ Hl] ->]]; [exact C|].
    destruct C as [(_ & Ha & n & Hn) | (Hw & _)]; [|congruence].
    right. unfold waiting, senders in *. simpl. rewrite Ha. repeat split.
    exists n. now rewrite map_app, Hn.
  - destruct H as (n & reply & log & Ha & _ & -> & Hs & _).
    destruct C as [(_ & Hz & _) | (_ & Hone & k & Hk)]; [congruence|].
    left. unfold idle, senders in *. simpl. repeat split; [congruence|].
    exists (S k).
    rewrite map_app, Hk, exchanges_snoc, <- app_assoc. simpl. now rewrite Hs.
  - destruct H as (n & log & _ & ->). exact C.
Qed.

Lemma run_consistent events : forall s s',
  consistent s -> run events s = Some s' -> consistent s'.
Proof.
  induction events as [|e rest IH]; simpl; intros s s' C H.
  - now injection H as <-.
  - destruct (step e s) as [s1|] eqn:E; [|discriminate].
    eapply IH; [|exact H]. eapply step_consistent; eassumption.
Qed.

Lemma reachable_consistent s : reachable s -> consistent s.
Proof.
  intros [events H]. eapply run_consistent; [|exact H].
  left. exact mounted_idle.
Qed.

Lemma run_app events1 : forall events2 s,
  run (events1 ++ events2) s =
    match run events1 s with
    | Some s' => run events2 s'
    | None => None
    end.
Proof.
  induction events1 as [|e rest IH]; simpl; intros; [reflexivity|].
  now destruct (step e s).
Qed.

Lemma reachable_step e s s' :
  reachable s -> step e s = Some s' -> reachable s'.
Proof.
  intros [events H] E. exists (events ++ [e]).
  rewrite run_app, H. simpl. now rewrite E.
Qed.

(** With a request in flight, the events other than its settling leave
    the transcript, [isLoading] and the suspended call as they are. *)
Lemma run_while_waiting events : forall s s',
  forallb not_ChatSettles events = true ->
  isLoading s = true ->
  run events s = Some s' ->
  messages s' = messages s /\ isLoading s' = true
  /\ awaiting_handleSendMessage s' = awaiting_handleSendMessage s.
Proof.
  induction events as [|e rest IH]; simpl; intros s s' Q L H.
  - injection H as <-. now repeat split.
  - apply andb_true_iff in Q as [Qe Q].
    destruct (step e s) as [s1|] eqn:E; [|discriminate].
    apply step_inv in E.
    destruct e as [value | now | response now | response];
      try discriminate Qe.
    + subst s1. now apply IH in H.
    + destruct E as [[_ ->] | [[_ Hl] _]]; [|congruence]. now apply IH in H.
    + destruct E as (n & log & _ & ->). now apply IH in H.
Qed.

Lemma chat_request_is_not_ping inputMessage :
  is_ping (chat_request inputMessage) = false.
Proof.
  unfold is_ping, chat_request, JsString.eqb, JsString.concat. simpl.
  destruct (list_eq_dec _ _ _) as [E|]; [|reflexivity].
  apply app_inv_head in E. discriminate E.
Qed.

(** The probe along a run: each settling uses up one suspended
    [wakeUpServer], [isServerAwake] is raised by a 2xx response and by
    nothing else, and no event issues another probe. *)
Lemma run_probe events : forall s s',
  run events s = Some s' ->
  List.length (ping_outcomes events) + awaiting_wakeUpServer s' =
    awaiting_wakeUpServer s
  /\ isServerAwake s' =
       isServerAwake s || existsb ping_ok (ping_outcomes events)
  /\ filter is_ping (fetched s') = filter is_ping (fetched s).
Proof.
  induction events as [|e rest IH]; simpl; intros s s' H.
  - injection H as <-. now rewrite orb_false_r.
  - destruct (step e s) as [s1|] eqn:E; [|discriminate].
    apply step_inv in E. apply IH in H as (Hn & Hb & Hf).
    destruct e as [value | now | response now | response].
    + subst s1. now repeat split.
    + destruct E as [[_ ->] | [_ ->]]; [now repeat split|].
      simpl in *. repeat split; try assumption.
      rewrite Hf, filter_app. simpl.
      now rewrite chat_request_is_not_ping, app_nil_r.
    + destruct E as (n & reply & log & _ & _ & -> & _). now repeat split.
    + destruct E as (n & log & Ha & ->). simpl in *.
      repeat split; [lia | | assumption].
      now rewrite Hb, orb_assoc.
Qed.

Lemma dispatch_ChatSettles response now s n :
  awaiting_handleSendMessage s = S n ->
  exists reply log,
    dispatch (ChatSettles response now) s =
      Some (inr tt,
            mkSession (messages s ++ [reply]) (inputMessage s) false
              (isServerAwake s) (fetched s) (console s ++ log)
              (awaiting_wakeUpServer s) n)
    /\ sender reply = ai /\ timestamp reply = now.
Proof.
  intro Ha. simpl. rewrite Ha. unfold bind. simpl.
  destruct (handleSendMessage_resume_shape response now
              (mkSession (messages s) (inputMessage s) (isLoading s)
                 (isServerAwake s) (fetched s) (console s)
                 (awaiting_wakeUpServer s) n))
    as (reply & log & E & Hs & Ht).
  exists reply, log. now rewrite E.
Qed.

Lemma JsString_eqb_refl (a : jsstring) : JsString.eqb a a = true.
Proof. unfold JsString.eqb. now destruct (list_eq_dec _ a a). Qed.

Lemma in_ping_outcomes response events :
  In response (ping_outcomes events) <-> In (PingSettles response) events.
Proof.
  induction events as [|e rest IH]; simpl; [tauto|].
  destruct e; simpl; rewrite IH; split; intros H;
    try (now right); try (destruct H as [H | H]; [discriminate | exact H]).
  - destruct H as [-> | H]; [now left | now right].
  - destruct H as [[= ->] | H]; [now left | now right].
Qed.

Lemma count_exchanges n : forall ms,
  senders ms = exchanges n ->
  count_sender user ms = n /\ count_sender ai ms = n.
Proof.
  unfold senders, count_sender.
  induction n as [|n IH]; simpl; intros ms H.
  - now apply map_eq_nil in H as ->.
  - destruct ms as [|m1 [|m2 ms]]; try discriminate.
    simpl in H. injection H as H1 H2 H.
    apply IH in H as [Hu Ha]. simpl. rewrite H1, H2. simpl.
    now rewrite Hu, Ha.
Qed.

Lemma ends_with_ai ms n :
  senders ms = exchanges n ->
  ms = [] \/ exists earlier m, ms = earlier ++ [m] /\ sender m = ai.
Proof.
  unfold senders. destruct n as [|n]; intro H.
  - left. now apply map_eq_nil in H.
  - right. rewrite exchanges_snoc in H.
    destruct (exists_last (l := ms)) as (earlier & m & ->).
    + intros ->. now destruct (exchanges n).
    + exists earlier, m. split; [reflexivity|].
      rewrite map_app in H. simpl in H.
      change [user; ai] with ([user] ++ [ai]) in H.
      rewrite app_assoc in H.
      now apply app_inj_tail in H as [_ H].
Qed.

(** ** The claims about one call of a handler *)

(** C3. A call of [handleSendMessage] while [isLoading] is true, or with
    an [inputMessage] that trims to the empty string, returns at once:
    the session is the same afterwards, cell by cell ([messages],
    [inputMessage], [isLoading]), and so is the list of issued requests. *)
Theorem blocked_send_changes_nothing (s : Session) (now : Date) :
  isLoading s = true \/ JsString.trim (inputMessage s) = JsString.empty ->
  dispatch (Send now) s = Some (inr tt, s).
Proof.
  intro H. simpl. unfold handleSendMessage.
  now rewrite (guard_blocks _ H).
Qed.

(** C6. A call of [handleSendMessage] that passes the guard does, before
    it is suspended at [await fetch(...)]: append one message of the user
    with the raw [inputMessage] and the time of the call, set
    [inputMessage] to the empty string and [isLoading] to true, and issue
    one request, a POST to [API_URL/chat] with the JSON of
    [{ question: inputMessage }] as body. *)
Theorem send_appends_user_message_and_posts (s : Session) (now : Date) :
  passes_guard (inputMessage s) (isLoading s) ->
  dispatch (Send now) s =
    Some (inr tt,
          mkSession
            (messages s ++ [mkMessage (JString (inputMessage s)) user now])
            (js "") true (isServerAwake s)
            (fetched s ++ [chat_request (inputMessage s)]) (console s)
            (awaiting_wakeUpServer s) (S (awaiting_handleSendMessage s)))
  /\ url (chat_request (inputMessage s)) = JsString.concat API_URL (js "/chat")
  /\ request_method (chat_request (inputMessage s)) = js "POST"
  /\ option_map body (init (chat_request (inputMessage s))) =
       Some (JSON_stringify
               (JObject [(js "question", JString (inputMessage s))])).
Proof.
  intro H. repeat split.
  simpl. unfold handleSendMessage.
  now rewrite (guard_passes H).
Qed.

(** C4. When the request of a submission fails (the promise of [fetch]
    rejects, or the status is not 2xx), the message appended is the
    assistant's "Sorry, there was an error processing your request.
    Please try again.", the failure is written with [console.error], and
    the handler returns normally. *)
Theorem failed_request_gets_error_notice
    (s : Session) (response : Settled Response) (now : Date) :
  request_failed response ->
  exists s',
    handleSendMessage_resume response now s = (inr tt, s')
    /\ messages s' =
         messages s ++
         [mkMessage
            (JString (js "Sorry, there was an error processing your request. Please try again."))
            ai now]
    /\ console s' =
         console s ++ [console_error_line (js "Error:") (failure_of response)].
Proof.
  intro H. eexists. split.
  - now apply handleSendMessage_resume_failed.
  - split; reflexivity.
Qed.

(** C2, amended. When the request resolves with a 2xx response whose
    body is an object with an [answer] field that is truthy (a non-empty
    string, in particular), the message appended is the assistant's and
    carries exactly that value. *)
Theorem truthy_answer_is_echoed
    (s : Session) (response : Response) (now : Date)
    (props : list (jsstring * JsValue)) (answer : JsValue) :
  ok response = true ->
  json response = Fulfilled (JObject props) ->
  Js.lookup (js "answer") props = Some answer ->
  Js.to_boolean answer = true ->
  messages (snd (handleSendMessage_resume (Fulfilled response) now s)) =
    messages s ++ [mkMessage answer ai now].
Proof.
  intros Hok Hjson Hlook Htrue.
  rewrite (@handleSendMessage_resume_answered response now s _ answer Hok Hjson).
  - simpl. unfold Js.or. now rewrite Htrue.
  - simpl. now rewrite Hlook.
Qed.

(** C5, amended. When the request resolves with a 2xx response whose
    body is JSON other than [null] and has no [answer] field, the
    message appended is the assistant's "Sorry, I could not process your
    request.". *)
Theorem missing_answer_gets_fallback
    (s : Session) (response : Response) (now : Date) (data : JsValue) :
  ok response = true ->
  json response = Fulfilled data ->
  Js.is_nullish data = false ->
  Js.has_field (js "answer") data = false ->
  messages (snd (handleSendMessage_resume (Fulfilled response) now s)) =
    messages s ++
    [mkMessage (JString (js "Sorry, I could not process your request.")) ai now].
Proof.
  intros Hok Hjson Hnull Hfield.
  rewrite (@handleSendMessage_resume_answered response now s _ JUndefined Hok Hjson).
  - reflexivity.
  - destruct data; simpl in *; try discriminate; try reflexivity.
    now destruct (Js.lookup _ props).
Qed.

(** C10. When the request resolves with a 2xx response whose body has an
    [answer] field that is falsy (the empty string, [null], [0],
    [false]), the message appended is the assistant's "Sorry, I could not
    process your request.", not the value of the field. *)
Theorem falsy_answer_gets_fallback
    (s : Session) (response : Response) (now : Date)
    (props : list (jsstring * JsValue)) (answer : JsValue) :
  ok response = true ->
  json response = Fulfilled (JObject props) ->
  Js.lookup (js "answer") props = Some answer ->
  Js.to_boolean answer = false ->
  messages (snd (handleSendMessage_resume (Fulfilled response) now s)) =
    messages s ++
    [mkMessage (JString (js "Sorry, I could not process your request.")) ai now].
Proof.
  intros Hok Hjson Hlook Hfalse.
  rewrite (@handleSendMessage_resume_answered response now s _ answer Hok Hjson).
  - simpl. unfold Js.or. now rewrite Hfalse.
  - simpl. now rewrite Hlook.
Qed.

(** ** The claims about a session *)

(** C1. A submission that passes the guard (the text trims to something,
    [isLoading] is false), whatever happens before its request settles
    and however it settles (an answer, a body without one, a body that is
    not JSON, a non-2xx status, a rejection): when it settles the handler
    returns normally, the transcript is the one before the submission
    followed by the question and by one message of the assistant, and
    [isLoading] is false. *)
Theorem submission_gets_exactly_one_reply
    (s s1 : Session) (now now' : Date) (events : list Event)
    (response : Settled Response) :
  passes_guard (inputMessage s) (isLoading s) ->
  forallb not_ChatSettles events = true ->
  run (Send now :: events) s = Some s1 ->
  exists s2 reply,
    dispatch (ChatSettles response now') s1 = Some (inr tt, s2)
    /\ messages s2 =
         messages s ++ [mkMessage (JString (inputMessage s)) user now; reply]
    /\ sender reply = ai
    /\ count_sender ai (messages s2) = S (count_sender ai (messages s))
    /\ isLoading s2 = false.
Proof.
  intros G Q H. cbn [run] in H.
  destruct (step (Send now) s) as [s0|] eqn:E; [|discriminate].
  apply step_inv in E as [[[Hl | Ht] _] | [_ ->]];
    [destruct G; congruence | destruct G; congruence |].
  apply run_while_waiting in H as (Hm & _ & Ha); [|exact Q|reflexivity].
  simpl in Hm, Ha.
  destruct (dispatch_ChatSettles response now' s1 Ha)
    as (reply & log & D & Hs & _).
  eexists _, reply. split; [exact D|]. simpl.
  rewrite Hm, <- app_assoc. repeat split; try assumption.
  unfold count_sender. rewrite !filter_app, !length_app. simpl.
  rewrite Hs. simpl. lia.
Qed.

(** C7. The probe is issued once, when the component mounts.  Along any
    run of events: [isServerAwake] is true exactly when the request to
    [/ping] has resolved with a 2xx response; once it has settled
    otherwise (a rejection, another status) [isServerAwake] is false in
    every later state; the request to [/ping] issued at mount is the
    only one ever issued; and the probe returns normally however the
    request settles. *)
Theorem probe_sets_isServerAwake (events : list Event) (s : Session) :
  run events mounted = Some s ->
  (isServerAwake s = true <->
     exists r, In (PingSettles (Fulfilled r)) events /\ ok r = true)
  /\ (forall response,
        In (PingSettles response) events -> ping_ok response = false ->
        isServerAwake s = false)
  /\ filter is_ping (fetched s) = [ping_request]
  /\ (forall response s0, fst (wakeUpServer_resume response s0) = inr tt).
Proof.
  intro H. apply run_probe in H as (Hn & Hb & Hf). simpl in Hn, Hb, Hf.
  unfold is_ping in Hf at 2. simpl in Hf. rewrite JsString_eqb_refl in Hf.
  repeat split.
  - rewrite Hb. intro E. apply existsb_exists in E as (x & Hin & Hx).
    destruct x as [r | e]; [|discriminate].
    exists r. split; [|exact Hx]. now apply in_ping_outcomes.
  - intros (r & Hin & Hr). rewrite Hb.
    apply existsb_exists. exists (Fulfilled r).
    split; [|exact Hr]. now apply in_ping_outcomes.
  - intros response Hin Hr. rewrite Hb.
    apply in_ping_outcomes in Hin.
    destruct (ping_outcomes events) as [|x [|y l]]; simpl in *;
      [contradiction | | lia].
    destruct Hin as [-> | []]. now rewrite Hr.
  - exact Hf.
  - intros response s0.
    destruct (wakeUpServer_resume_shape response s0) as (log & E).
    now rewrite E.
Qed.

(** C8. In a reachable session with [isLoading] false the transcript is
    empty or ends with a message of the assistant, and it consists of
    complete exchanges: every message of the user is followed by one of
    the assistant, and there are as many of the one as of the other.  In
    a reachable session with [isLoading] true the transcript is complete
    exchanges followed by one message of the user, whose request is in
    flight: however that request settles, the event is accepted, appends
    one message of the assistant and clears [isLoading]. *)
Theorem no_dangling_user_message (s : Session) :
  reachable s ->
  (isLoading s = false ->
     (messages s = [] \/
      exists earlier m, messages s = earlier ++ [m] /\ sender m = ai)
     /\ (exists n, senders (messages s) = exchanges n)
     /\ count_sender user (messages s) = count_sender ai (messages s))
  /\ (isLoading s = true ->
      (exists n, senders (messages s) = exchanges n ++ [user])
      /\ forall response now, exists s' reply,
           step (ChatSettles response now) s = Some s'
           /\ messages s' = messages s ++ [reply]
           /\ sender reply = ai
           /\ isLoading s' = false).
Proof.
  intro R. apply reachable_consistent in R.
  destruct R as [(Hl & Ha & n & Hn) | (Hl & Ha & n & Hn)]; split; intro L;
    try congruence.
  - split; [now apply ends_with_ai with n|].
    split; [now exists n|].
    apply count_exchanges in Hn as [-> ->]. reflexivity.
  - split; [now exists n|]. intros response now.
    destruct (dispatch_ChatSettles response now s Ha)
      as (reply & log & D & Hs & _).
    eexists _, reply. unfold step. rewrite D. simpl. now repeat split.
Qed.

(** C9. In a reachable session the senders of the transcript alternate,
    starting with the user.  Every event leaves the transcript as it is
    or appends one message to it, by the sender other than the one of the
    last message (by the user when the transcript is empty); nothing is
    removed or moved. *)
Theorem transcript_alternates (s : Session) :
  reachable s ->
  (exists n, senders (messages s) = exchanges n
             \/ senders (messages s) = exchanges n ++ [user])
  /\ forall e s',
       step e s = Some s' ->
       messages s' = messages s
       \/ exists m, messages s' = messages s ++ [m]
                    /\ sender m <> last (senders (messages s)) ai.
Proof.
  intro R. apply reachable_consistent in R. split.
  - destruct R as [(_ & _ & n & Hn) | (_ & _ & n & Hn)]; exists n; tauto.
  - intros e s' H. apply step_inv in H.
    destruct e as [value | now | response now | response].
    + subst s'. now left.
    + destruct H as [[_ ->] | [[_ Hl] ->]]; [now left|].
      right. eexists. split; [reflexivity|]. simpl.
      destruct R as [(_ & _ & n & Hn) | (Hw & _)]; [|congruence].
      rewrite Hn, last_exchanges. discriminate.
    + destruct H as (n & reply & log & Ha & _ & -> & Hs & _).
      right. exists reply. split; [reflexivity|].
      destruct R as [(_ & Hz & _) | (_ & _ & k & Hk)]; [congruence|].
      rewrite Hk, last_last, Hs. discriminate.
    + destruct H as (n & log & _ & ->). now left.
Qed.

(** ** Further properties of the handlers *)

(** The reply and what is logged depend on how the request settled and on
    the time only, not on the session; the reply is never falsy, and
    something is logged exactly on the [catch] path. *)
Lemma handleSendMessage_resume_uniform response now :
  exists reply log,
    (forall s,
       handleSendMessage_resume response now s =
         (inr tt,
          mkSession (messages s ++ [mkMessage reply ai now]) (inputMessage s)
            false (isServerAwake s) (fetched s) (console s ++ log)
            (awaiting_wakeUpServer s) (awaiting_handleSendMessage s)))
    /\ Js.to_boolean reply = true
    /\ (log = [] \/
        exists e, log = [console_error_line (js "Error:") e]
                  /\ reply = error_notice).
Proof.
  unfold handleSendMessage_resume, try_catch_finally, try_catch.
  destruct response as [[st [data | e]] | e]; unfold bind, await; simpl.
  - destruct (ok _); simpl.
    + destruct (Js.get data (js "answer")) as [e | answer]; simpl.
      * eexists _, [_]. repeat split. right. now eexists.
      * exists (Js.or answer fallback_notice), []. repeat split.
        -- intro s. now rewrite app_nil_r.
        -- unfold Js.or. now destruct (Js.to_boolean answer) eqn:E.
        -- now left.
    + eexists _, [_]. repeat split. right. now eexists.
  - destruct (ok _); simpl; eexists _, [_]; repeat split; right; now eexists.
  - eexists _, [_]. repeat split. right. now eexists.
Qed.

Lemma step_ChatSettles_uniform response now :
  exists reply log,
    (forall s n,
       awaiting_handleSendMessage s = S n ->
       step (ChatSettles response now) s =
         Some (mkSession (messages s ++ [mkMessage reply ai now])
                 (inputMessage s) false (isServerAwake s) (fetched s)
                 (console s ++ log) (awaiting_wakeUpServer s) n))
    /\ Js.to_boolean reply = true.
Proof.
  destruct (handleSendMessage_resume_uniform response now)
    as (reply & log & E & T & _).
  exists reply, log. split; [|exact T].
  intros s n Ha. unfold step. simpl. rewrite Ha.
  unfold bind. simpl. now rewrite E.
Qed.

(** X1. [API_URL] is never the empty string: a value of the environment
    variable that is not empty is taken as it is, and an unset or empty one
    gives ["http://localhost:3001"]. *)
Theorem API_URL_is_never_empty :
  JsString.to_boolean API_URL = true
  /\ (forall v, REACT_APP_API_URL = Some v -> v <> JsString.empty ->
                API_URL = v)
  /\ (REACT_APP_API_URL = None \/ REACT_APP_API_URL = Some JsString.empty ->
      API_URL = js "http://localhost:3001").
Proof.
  unfold API_URL. repeat split.
  - destruct REACT_APP_API_URL as [v|]; [|reflexivity].
    now destruct (JsString.to_boolean v) eqn:E.
  - intros v -> Hv. apply to_boolean_trim in Hv. now rewrite Hv.
  - now intros [-> | ->].
Qed.

(** X2. When the response is 2xx but [response.json()] rejects (the body
    is not JSON), the reply is the error notice, the reason of the
    rejection goes to [console.error], and [isLoading] is cleared. *)
Theorem body_that_is_not_json_gets_error_notice
    (s : Session) (response : Response) (now : Date) (reason : JsError) :
  ok response = true ->
  json response = Rejected reason ->
  handleSendMessage_resume (Fulfilled response) now s =
    (inr tt,
     mkSession
       (messages s ++
        [mkMessage
           (JString (js "Sorry, there was an error processing your request. Please try again."))
           ai now])
       (inputMessage s) false (isServerAwake s) (fetched s)
       (console s ++ [console_error_line (js "Error:") reason])
       (awaiting_wakeUpServer s) (awaiting_handleSendMessage s)).
Proof.
  intros Hok Hjson.
  unfold handleSendMessage_resume, try_catch_finally, try_catch.
  unfold bind, await; simpl. now rewrite Hok, Hjson.
Qed.


(** X4. However the request settles, the second part of
    [handleSendMessage] issues no request (there is no automatic retry),
    leaves the text field and [isServerAwake] as they are, and appends a
    message whose text is truthy: the transcript never gets an empty
    reply. *)
Theorem reply_never_retries_and_is_never_empty
    (s : Session) (response : Settled Response) (now : Date) :
  let s' := snd (handleSendMessage_resume response now s) in
  fetched s' = fetched s
  /\ inputMessage s' = inputMessage s
  /\ isServerAwake s' = isServerAwake s
  /\ exists reply, messages s' = messages s ++ [mkMessage reply ai now]
                   /\ Js.to_boolean reply = true.
Proof.
  destruct (handleSendMessage_resume_uniform response now)
    as (reply & log & E & T & _).
  simpl. rewrite E. simpl. repeat split. now exists reply.
Qed.

(** X5. Something is written to [console.error] only when the reply is
    the error notice: a reply that is an answer or the fallback notice
    leaves the console as it is. *)
Theorem console_error_only_with_error_notice
    (s : Session) (response : Settled Response) (now : Date) :
  let s' := snd (handleSendMessage_resume response now s) in
  console s' = console s
  \/ exists e,
       console s' = console s ++ [console_error_line (js "Error:") e]
       /\ messages s' =
            messages s ++
            [mkMessage
               (JString (js "Sorry, there was an error processing your request. Please try again."))
               ai now].
Proof.
  destruct (handleSendMessage_resume_uniform response now)
    as (reply & log & E & _ & [-> | (e & -> & ->)]);
    simpl; rewrite E; simpl.
  - left. apply app_nil_r.
  - right. now exists e.
Qed.

(** X6. What the probe writes to the console: "Server is awake" on a 2xx
    response, "Server is starting up, might take a minute..." when the
    request is rejected, and nothing at all on a response that is not 2xx,
    which leaves the session exactly as it was. *)
Theorem probe_console (s : Session) (response : Settled Response) :
  wakeUpServer_resume response s =
    match response with
    | Fulfilled r =>
        if ok r
        then (inr tt,
              mkSession (messages s) (inputMessage s) (isLoading s) true
                (fetched s) (console s ++ [console_log_line (js "Server is awake")])
                (awaiting_wakeUpServer s) (awaiting_handleSendMessage s))
        else (inr tt, s)
    | Rejected _ =>
        (inr tt,
         mkSession (messages s) (inputMessage s) (isLoading s) (isServerAwake s)
           (fetched s)
           (console s ++
            [console_log_line (js "Server is starting up, might take a minute...")])
           (awaiting_wakeUpServer s) (awaiting_handleSendMessage s))
    end.
Proof.
  unfold wakeUpServer_resume, try_catch.
  destruct response as [r | e]; unfold bind, await; simpl; [|reflexivity].
  destruct (ok r); simpl; reflexivity.
Qed.

(** ** Further properties of a session *)

Lemma user_questions_app ms1 ms2 :
  user_questions (ms1 ++ ms2) = user_questions ms1 ++ user_questions ms2.
Proof.
  induction ms1 as [|m rest IH]; simpl; [reflexivity|].
  destruct (sender m); [|exact IH].
  destruct (text m); try exact IH. simpl. now rewrite IH.
Qed.

Lemma step_requests base e s s' :
  fetched s = base ++ map chat_request (user_questions (messages s)) ->
  step e s = Some s' ->
  fetched s' = base ++ map chat_request (user_questions (messages s')).
Proof.
  intros F H. apply step_inv in H.
  destruct e as [value | now | response now | response].
  - now subst s'.
  - destruct H as [[_ ->] | [_ ->]]; [exact F|]. simpl.
    rewrite user_questions_app, map_app, app_assoc, <- F. reflexivity.
  - destruct H as (n & reply & log & _ & _ & -> & Hs & _). simpl.
    rewrite user_questions_app. simpl. rewrite Hs. now rewrite app_nil_r.
  - destruct H as (n & log & _ & ->). exact F.
Qed.

Lemma step_presentable e s s' :
  Forall presentable (messages s) ->
  step e s = Some s' ->
  Forall presentable (messages s').
Proof.
  intros F H.
  destruct e as [value | now | response now | response].
  - apply step_inv in H. now subst s'.
  - apply step_inv in H. destruct H as [[_ ->] | [[Ht _] ->]]; [exact F|].
    simpl. apply Forall_app. split; [exact F|].
    constructor; [|constructor]. split; simpl.
    + destruct (inputMessage s); [now contradiction Ht|reflexivity].
    + intros _. now exists (inputMessage s).
  - destruct (step_ChatSettles_uniform response now)
      as (reply & log & E & T).
    pose proof (step_inv _ _ H) as (n & _ & _ & Ha & _).
    rewrite (E s n Ha) in H. injection H as <-. simpl.
    apply Forall_app. split; [exact F|].
    constructor; [|constructor]. split; simpl; [exact T|discriminate].
  - apply step_inv in H. destruct H as (n & log & _ & ->). exact F.
Qed.

Lemma StronglySorted_remove (A : Type) (R : A -> A -> Prop) x l2 : forall l1,
  StronglySorted R (l1 ++ x :: l2) -> StronglySorted R (l1 ++ l2).
Proof.
  induction l1 as [|y l1 IH]; simpl; intro H.
  - now apply StronglySorted_inv in H.
  - apply StronglySorted_inv in H as [H F]. constructor; [now apply IH|].
    apply Forall_app in F as [F1 F2]. apply Forall_app. split; [exact F1|].
    now apply Forall_inv_tail in F2.
Qed.

Lemma step_clock e rest s s' :
  StronglySorted Z.le (map timestamp (messages s) ++ clock (e :: rest)) ->
  step e s = Some s' ->
  StronglySorted Z.le (map timestamp (messages s') ++ clock rest).
Proof.
  intros S H. apply step_inv in H.
  destruct e as [value | now | response now | response]; simpl in S.
  - now subst s'.
  - destruct H as [[_ ->] | [_ ->]].
    + now apply StronglySorted_remove in S.
    + simpl. now rewrite map_app, <- app_assoc.
  - destruct H as (n & reply & log & _ & _ & -> & _ & Ht). simpl.
    rewrite map_app, <- app_assoc. simpl. now rewrite Ht.
  - destruct H as (n & log & _ & ->). exact S.
Qed.

Lemma step_chat_side e s1 s2 s1' :
  chat_side s1 = chat_side s2 ->
  step e s1 = Some s1' ->
  if not_PingSettles e
  then exists s2', step e s2 = Some s2' /\ chat_side s1' = chat_side s2'
  else chat_side s1' = chat_side s1.
Proof.
  unfold chat_side. intros [= Hm Hi Hl Hf Ha] H.
  destruct e as [value | now | response now | response]; simpl.
  - apply step_inv in H. subst s1'. eexists. split; [reflexivity|].
    simpl. now rewrite Hm, Hl, Hf, Ha.
  - unfold step in *. simpl in *. rewrite <- Hi, <- Hl.
    unfold handleSendMessage in *.
    destruct (negb _ || _); simpl in *; injection H as <-;
      (eexists; split; [reflexivity|]); simpl.
    + now rewrite Hm, Hi, Hl, Hf, Ha.
    + now rewrite Hm, Hf, Ha.
  - destruct (step_ChatSettles_uniform response now)
      as (reply & log & E & _).
    pose proof (step_inv _ _ H) as (n & _ & _ & Hn & _).
    rewrite (E s1 n Hn) in H. injection H as <-.
    rewrite Ha in Hn. rewrite (E s2 n Hn).
    eexists. split; [reflexivity|]. simpl. now rewrite Hm, Hi, Hf.
  - apply step_inv in H. destruct H as (n & log & _ & ->). reflexivity.
Qed.

Lemma run_chat_side events : forall s1 s2 s1',
  chat_side s1 = chat_side s2 ->
  run events s1 = Some s1' ->
  exists s2',
    run (filter not_PingSettles events) s2 = Some s2'
    /\ chat_side s1' = chat_side s2'.
Proof.
  induction events as [|e rest IH]; simpl; intros s1 s2 s1' C H.
  - injection H as <-. now exists s2.
  - destruct (step e s1) as [t1|] eqn:E; [|discriminate].
    pose proof (@step_chat_side e s1 s2 t1 C E) as P.
    destruct (not_PingSettles e).
    + destruct P as (t2 & E2 & C2). simpl. rewrite E2.
      now apply IH with t1.
    + apply IH with t1; [congruence|exact H].
Qed.

(** With a text that does not trim to nothing in the field of a session
    that is not loading, the text goes out. *)
Lemma change_then_send v now s :
  JsString.trim v <> JsString.empty ->
  isLoading s = false ->
  run [Change v; Send now] s =
    Some (mkSession (messages s ++ [mkMessage (JString v) user now])
            (js "") true (isServerAwake s)
            (fetched s ++ [chat_request v]) (console s)
            (awaiting_wakeUpServer s) (S (awaiting_handleSendMessage s))).
Proof.
  intros Hv Hl. unfold run, step. simpl. unfold handleSendMessage.
  apply to_boolean_trim in Hv. now rewrite Hv, Hl.
Qed.

(** X7. In every reachable session at most one call of
    [handleSendMessage] is suspended at its [await], and [isLoading] is true
    exactly while one is: there is never a second chat request in
    flight. *)
Theorem at_most_one_chat_request_in_flight (s : Session) :
  reachable s ->
  awaiting_handleSendMessage s <= 1
  /\ (isLoading s = true <-> awaiting_handleSendMessage s = 1).
Proof.
  intro R. apply reachable_consistent in R.
  destruct R as [(Hl & Ha & _) | (Hl & Ha & _)]; rewrite Hl, Ha;
    repeat split; try lia; try discriminate; reflexivity.
Qed.

(** X8. In every reachable session the requests issued so far are the
    probe, first, and then one POST to [/chat] for each message of the user
    in the transcript, in the order of the transcript, with the text of
    that message as question. *)
Theorem requests_are_the_probe_and_the_questions (s : Session) :
  reachable s ->
  fetched s = ping_request :: map chat_request (user_questions (messages s)).
Proof.
  intros [events H].
  change (fetched s =
            [ping_request] ++ map chat_request (user_questions (messages s))).
  assert (G : forall evs s0 s1,
             fetched s0 =
               [ping_request] ++ map chat_request (user_questions (messages s0)) ->
             run evs s0 = Some s1 ->
             fetched s1 =
               [ping_request] ++ map chat_request (user_questions (messages s1))).
  { induction evs as [|e rest IH]; simpl; intros s0 s1 F R.
    - now injection R as <-.
    - destruct (step e s0) as [t|] eqn:E; [|discriminate].
      apply IH with t; [|exact R]. now apply step_requests with e s0. }
  now apply G with events mounted.
Qed.

(** X9. In every reachable session every message of the transcript has a
    truthy text, and every message of the user carries a string that does
    not trim to the empty string: no bubble is empty. *)
Theorem every_message_is_presentable (s : Session) :
  reachable s -> Forall presentable (messages s).
Proof.
  intros [events H].
  assert (G : forall evs s0 s1,
             Forall presentable (messages s0) ->
             run evs s0 = Some s1 ->
             Forall presentable (messages s1)).
  { induction evs as [|e rest IH]; simpl; intros s0 s1 F R.
    - now injection R as <-.
    - destruct (step e s0) as [t|] eqn:E; [|discriminate].
      apply IH with t; [|exact R]. now apply step_presentable with e s0. }
  apply G with events mounted; [constructor|exact H].
Qed.

(** X10. [isServerAwake] is never reset: once it is true it is true after
    every run of events, however later requests settle. *)
Theorem isServerAwake_is_never_reset (events : list Event) (s s' : Session) :
  run events s = Some s' ->
  isServerAwake s = true ->
  isServerAwake s' = true.
Proof.
  intros H A. apply run_probe in H as (_ & -> & _). now rewrite A.
Qed.

(** X11. The probe does not interfere with the chat: a run of events and
    the same run without the settling of the probe end with the same
    transcript, text field, [isLoading] and issued requests. *)
Theorem probe_does_not_interfere (events : list Event) (s s' : Session) :
  run events s = Some s' ->
  exists s'',
    run (filter not_PingSettles events) s = Some s''
    /\ messages s'' = messages s'
    /\ inputMessage s'' = inputMessage s'
    /\ isLoading s'' = isLoading s'
    /\ fetched s'' = fetched s'.
Proof.
  intro H.
  destruct (@run_chat_side events s s s' eq_refl H) as (s'' & R & C).
  exists s''. split; [exact R|].
  unfold chat_side in C. injection C as -> -> -> -> _. now repeat split.
Qed.

(** X12. When the clock does not go back between the events of a run from
    the mounted session, the timestamps of the transcript are in
    non-decreasing order. *)
Theorem transcript_is_chronological (events : list Event) (s : Session) :
  run events mounted = Some s ->
  StronglySorted Z.le (clock events) ->
  StronglySorted Z.le (map timestamp (messages s)).
Proof.
  intros H S.
  assert (G : forall evs s0 s1,
             StronglySorted Z.le (map timestamp (messages s0) ++ clock evs) ->
             run evs s0 = Some s1 ->
             StronglySorted Z.le (map timestamp (messages s1))).
  { induction evs as [|e rest IH]; intros s0 s1 F R.
    - simpl in R. injection R as <-. simpl in F. now rewrite app_nil_r in F.
    - cbn [run] in R. destruct (step e s0) as [t|] eqn:E; [|discriminate].
      apply IH with t; [|exact R]. now apply step_clock with e s0. }
  now apply G with events mounted.
Qed.

(** X13. A click on any of the three suggestions followed by a send, in a
    session that is not loading, posts that suggestion: it becomes the last
    message of the transcript and the question of the request issued. *)
Theorem suggestion_then_send_posts_it (q : jsstring) (s : Session) (now : Date) :
  In q suggestions ->
  isLoading s = false ->
  run [Change q; Send now] s =
    Some (mkSession (messages s ++ [mkMessage (JString q) user now])
            (js "") true (isServerAwake s)
            (fetched s ++ [chat_request q]) (console s)
            (awaiting_wakeUpServer s) (S (awaiting_handleSendMessage s))).
Proof.
  intros Hq Hl. apply change_then_send; [|exact Hl].
  destruct Hq as [<- | [<- | [<- | []]]]; vm_compute; discriminate.
Qed.


(** ** Properties of what is rendered and of the keyboard handler *)

Lemma map_from_app (A B : Type) (f : A -> nat -> B) l2 : forall l1 index,
  map_from index f (l1 ++ l2) =
    map_from index f l1 ++ map_from (index + List.length l1) f l2.
Proof.
  induction l1 as [|x l1 IH]; simpl; intro index.
  - now rewrite Nat.add_0_r.
  - now rewrite IH, Nat.add_succ_r.
Qed.

Lemma map_from_keys ms : forall index,
  map item_key (map_from index render_message ms) = seq index (List.length ms).
Proof.
  induction ms as [|m ms IH]; simpl; intro index; [reflexivity|].
  now rewrite IH.
Qed.

Lemma handleSendMessage_returns inputMessage isLoading now s :
  fst (handleSendMessage inputMessage isLoading now s) = inr tt.
Proof.
  unfold handleSendMessage. now destruct (negb _ || _).
Qed.

(** X15. The send button is disabled exactly when a call of
    [handleSendMessage] would return at its guard and leave the session as
    it is: an enabled button always sends. *)
Theorem send_button_is_disabled_iff_send_does_nothing
    (s : Session) (now : Date) :
  sendButton_disabled (render s) = true <->
  dispatch (Send now) s = Some (inr tt, s).
Proof.
  simpl. unfold handleSendMessage.
  destruct (negb _ || isLoading s) eqn:G; split; intro H;
    try reflexivity; try discriminate.
  apply orb_false_iff in G as [_ G].
  injection H as H. apply (f_equal isLoading) in H. simpl in H. congruence.
Qed.

(** X16. The list items have the keys 0, 1, ... in the order of the
    transcript, and an event never changes an item that is already there,
    its key included: it leaves the list as it is or adds one item at the
    end. *)
Theorem list_items_are_stable (e : Event) (s s' : Session) :
  step e s = Some s' ->
  map item_key (list_items (render s)) = seq 0 (List.length (messages s))
  /\ exists added,
       list_items (render s') = list_items (render s) ++ added
       /\ List.length added <= 1.
Proof.
  intro H. split; [apply map_from_keys|].
  apply step_inv in H. unfold render. simpl.
  destruct e as [value | now | response now | response].
  - subst s'. exists []. split; [now rewrite app_nil_r | simpl; lia].
  - destruct H as [[_ ->] | [_ ->]].
    + exists []. split; [now rewrite app_nil_r | simpl; lia].
    + simpl. rewrite map_from_app. eexists. split; [reflexivity|]. simpl. lia.
  - destruct H as (n & reply & log & _ & _ & -> & _). simpl.
    rewrite map_from_app. eexists. split; [reflexivity|]. simpl. lia.
  - destruct H as (n & log & _ & ->). exists []. split; [now rewrite app_nil_r | simpl; lia].
Qed.

(** X17. In every reachable session the controls are locked exactly
    while a chat request is in flight: then the text field and the send
    button are disabled and the button shows the progress circle; otherwise
    the text field is enabled, the button shows the send icon, and the
    button is disabled only if the text trims to the empty string. *)
Theorem controls_are_locked_while_in_flight (s : Session) :
  reachable s ->
  (awaiting_handleSendMessage s = 1 /\
   textField_disabled (render s) = true /\
   sendButton_disabled (render s) = true /\
   sendButton_icon (render s) = CircularProgress)
  \/
  (awaiting_handleSendMessage s = 0 /\
   textField_disabled (render s) = false /\
   sendButton_icon (render s) = SendIcon /\
   (sendButton_disabled (render s) = true <->
    JsString.trim (inputMessage s) = JsString.empty)).
Proof.
  intro R. apply reachable_consistent in R.
  destruct R as [(Hl & Ha & _) | (Hl & Ha & _)]; [right | left]; simpl;
    rewrite Hl, Ha; repeat split.
  - rewrite orb_false_r. now destruct (JsString.trim (inputMessage s)).
  - intros ->. reflexivity.
  - apply orb_true_r.
Qed.

(** X18. Of the keys pressed in the text field only Enter without Shift
    does anything: it prevents the default and does what a click on the
    send button does (with the same guard).  Any other key, and Enter with
    Shift, leaves the session as it is and the default in place. *)
Theorem only_Enter_without_Shift_sends
    (e : KeyboardEvent) (s : Session) (now : Date) :
  (key e = js "Enter" /\ shiftKey e = false ->
   exists s',
     dispatch (Send now) s = Some (inr tt, s')
     /\ onKeyPress e (inputMessage s) (isLoading s) now s = (inr true, s'))
  /\ (key e <> js "Enter" \/ shiftKey e = true ->
      onKeyPress e (inputMessage s) (isLoading s) now s = (inr false, s)).
Proof.
  unfold onKeyPress. split.
  - intros [-> ->]. rewrite JsString_eqb_refl. simpl.
    pose proof (handleSendMessage_returns (inputMessage s) (isLoading s) now s) as F.
    unfold bind.
    destruct (handleSendMessage (inputMessage s) (isLoading s) now s) as [r s'].
    simpl in F. subst r. now exists s'.
  - intros [Hk | ->].
    + unfold JsString.eqb.
      now destruct (list_eq_dec N.eq_dec (key e) (js "Enter")).
    + now rewrite andb_false_r.
Qed.

End ChatInterface.

(** ** The scenarios, run *)

Open Scope Z_scope.

Example API_URL_default :
  API_URL None = js "http://localhost:3001"
  /\ API_URL (Some (js "")) = js "http://localhost:3001"
  /\ API_URL (Some (js "https://api.example.org")) = js "https://api.example.org".
Proof. repeat split. Qed.

Example trim_strips_unicode_white_space :
  JsString.trim [0x20; 0x09; 0xA0; 0x3000; 0x0A]%N = JsString.empty
  /\ JsString.trim (js "  hi there ") = js "hi there".
Proof. split; reflexivity. Qed.

Example falsy_values :
  Js.to_boolean (JString (js "")) = false
  /\ Js.to_boolean JNull = false
  /\ Js.to_boolean (JNumber 0) = false
  /\ Js.to_boolean (JNumber (-0)) = false
  /\ Js.to_boolean (JBool false) = false
  /\ Js.to_boolean (JNumber 42) = true
  /\ Js.to_boolean (JArray []) = true.
Proof. repeat split. Qed.

Example scenario_typed :
  run None [Change question] (mounted None) = Some (typed None).
Proof. reflexivity. Qed.

Example scenario_asked :
  run None [Change question; Send 1000] (mounted None) = Some (asked None).
Proof. reflexivity. Qed.

Example scenario_answer :
  option_map (fun s => (messages s, isLoading s))
    (run None [Change question; Send 1000;
               ChatSettles (Fulfilled answer_response) 2000] (mounted None)) =
  Some ([mkMessage (JString question) user 1000;
         mkMessage (JString (js "Bring wool or synthetic layers.")) ai 2000],
        false).
Proof. reflexivity. Qed.

Example scenario_network_error :
  option_map (fun s => (messages s, isLoading s))
    (run None [Change question; Send 1000;
               ChatSettles network_error 2000] (mounted None)) =
  Some ([mkMessage (JString question) user 1000;
         mkMessage
           (JString (js "Sorry, there was an error processing your request. Please try again."))
           ai 2000],
        false).
Proof. reflexivity. Qed.

Example scenario_empty_object :
  option_map (fun s => (messages s, isLoading s))
    (run None [Change question; Send 1000;
               ChatSettles (Fulfilled empty_object_response) 2000] (mounted None)) =
  Some ([mkMessage (JString question) user 1000;
         mkMessage (JString (js "Sorry, I could not process your request.")) ai 2000],
        false).
Proof. reflexivity. Qed.

Example scenario_body_is_not_json :
  option_map (fun s => (messages s, isLoading s))
    (run None [Change question; Send 1000;
               ChatSettles
                 (Fulfilled
                    (mkResponse 200
                       (Rejected (mkError (js "SyntaxError")
                                    (js "Unexpected token < in JSON at position 0")))))
                 2000] (mounted None)) =
  Some ([mkMessage (JString question) user 1000;
         mkMessage
           (JString (js "Sorry, there was an error processing your request. Please try again."))
           ai 2000],
        false).
Proof. reflexivity. Qed.

Example scenario_probe_fails_chat_works :
  option_map (fun s => (messages s, isServerAwake s))
    (run None [PingSettles network_error; Change question; Send 1000;
               ChatSettles (Fulfilled answer_response) 2000] (mounted None)) =
  Some ([mkMessage (JString question) user 1000;
         mkMessage (JString (js "Bring wool or synthetic layers.")) ai 2000],
        false).
Proof. reflexivity. Qed.

Example scenario_white_space_is_not_sent :
  run None [Change (js "   "); Send 1000] (mounted None) =
  run None [Change (js "   ")] (mounted None).
Proof. reflexivity. Qed.

Example scenario_settling_needs_a_request :
  run None [ChatSettles network_error 2000] (mounted None) = None.
Proof. reflexivity. Qed.

(** ** The claims at the scenarios *)

Lemma blocked_send_at_asked :
  (isLoading (asked None) = true
   \/ JsString.trim (inputMessage (asked None)) = JsString.empty)
  /\ dispatch None (Send 1500) (asked None) = Some (inr tt, asked None).
Proof.
  split.
  - left. reflexivity.
  - apply blocked_send_changes_nothing. left. reflexivity.
Defined.

Lemma question_passes_guard : passes_guard question false.
Proof. split; [vm_compute; discriminate | reflexivity]. Defined.

Lemma send_at_typed :
  passes_guard (inputMessage (typed None)) (isLoading (typed None))
  /\ dispatch None (Send 1000) (typed None) = Some (inr tt, asked None).
Proof.
  split.
  - exact question_passes_guard.
  - exact (proj1 (@send_appends_user_message_and_posts None (typed None) 1000
                    question_passes_guard)).
Defined.

Lemma network_error_at_asked :
  request_failed network_error
  /\ exists s',
       handleSendMessage_resume network_error 2000 (asked None) = (inr tt, s')
       /\ messages s' =
            messages (asked None) ++
            [mkMessage
               (JString (js "Sorry, there was an error processing your request. Please try again."))
               ai 2000]
       /\ console s' =
            console (asked None) ++
            [console_error_line (js "Error:") (failure_of network_error)].
Proof.
  split.
  - exact I.
  - apply failed_request_gets_error_notice. exact I.
Defined.

Lemma answer_at_asked :
  Js.to_boolean (JString (js "Bring wool or synthetic layers.")) = true
  /\ messages (snd (handleSendMessage_resume (Fulfilled answer_response) 2000
                      (asked None))) =
     messages (asked None) ++
     [mkMessage (JString (js "Bring wool or synthetic layers.")) ai 2000].
Proof.
  split.
  - reflexivity.
  - apply truthy_answer_is_echoed
      with (props := [(js "answer", JString (js "Bring wool or synthetic layers."))]);
      reflexivity.
Defined.

Lemma empty_object_at_asked :
  Js.has_field (js "answer") (JObject []) = false
  /\ messages (snd (handleSendMessage_resume (Fulfilled empty_object_response)
                      2000 (asked None))) =
     messages (asked None) ++
     [mkMessage (JString (js "Sorry, I could not process your request.")) ai 2000].
Proof.
  split.
  - reflexivity.
  - apply missing_answer_gets_fallback with (data := JObject []); reflexivity.
Defined.

Lemma empty_answer_at_asked :
  Js.to_boolean (JString (js "")) = false
  /\ messages (snd (handleSendMessage_resume (Fulfilled empty_answer_response)
                      2000 (asked None))) =
     messages (asked None) ++
     [mkMessage (JString (js "Sorry, I could not process your request.")) ai 2000].
Proof.
  split.
  - reflexivity.
  - apply falsy_answer_gets_fallback
      with (props := [(js "answer", JString (js ""))]) (answer := JString (js ""));
      reflexivity.
Defined.

Lemma one_reply_at_typed :
  run None
    (Send 1000 ::
     [Change (js "Do I need a rain coat?"); Send 1500; PingSettles network_error])
    (typed None) = Some (asked_and_probed None)
  /\ exists s2 reply,
       dispatch None (ChatSettles (Fulfilled null_response) 2000)
         (asked_and_probed None) = Some (inr tt, s2)
       /\ messages s2 =
            messages (typed None) ++
            [mkMessage (JString (inputMessage (typed None))) user 1000; reply]
       /\ sender reply = ai
       /\ count_sender ai (messages s2) = S (count_sender ai (messages (typed None)))
       /\ isLoading s2 = false.
Proof.
  split.
  - reflexivity.
  - apply submission_gets_exactly_one_reply
      with (events := [Change (js "Do I need a rain coat?"); Send 1500;
                       PingSettles network_error]).
    + exact question_passes_guard.
    + reflexivity.
    + reflexivity.
Defined.

Lemma probe_at_awake :
  run None [PingSettles (Fulfilled empty_object_response)] (mounted None) =
    Some (awake None)
  /\ (isServerAwake (awake None) = true <->
      exists r,
        In (PingSettles (Fulfilled r)) [PingSettles (Fulfilled empty_object_response)]
        /\ ok r = true)
  /\ (forall response,
        In (PingSettles response) [PingSettles (Fulfilled empty_object_response)] ->
        ping_ok response = false ->
        isServerAwake (awake None) = false)
  /\ filter (is_ping None) (fetched (awake None)) = [ping_request None]
  /\ (forall response s0, fst (wakeUpServer_resume response s0) = inr tt).
Proof.
  split.
  - reflexivity.
  - apply probe_sets_isServerAwake. reflexivity.
Defined.

Lemma asked_is_reachable : reachable None (asked None).
Proof. exists [Change question; Send 1000]. reflexivity. Defined.

Lemma no_dangling_at_asked :
  reachable None (asked None)
  /\ (isLoading (asked None) = false ->
      (messages (asked None) = [] \/
       exists earlier m, messages (asked None) = earlier ++ [m] /\ sender m = ai)
      /\ (exists n, senders (messages (asked None)) = exchanges n)
      /\ count_sender user (messages (asked None)) =
         count_sender ai (messages (asked None)))
  /\ (isLoading (asked None) = true ->
      (exists n, senders (messages (asked None)) = exchanges n ++ [user])
      /\ forall response now, exists s' reply,
           step None (ChatSettles response now) (asked None) = Some s'
           /\ messages s' = messages (asked None) ++ [reply]
           /\ sender reply = ai
           /\ isLoading s' = false).
Proof.
  split.
  - exact asked_is_reachable.
  - apply no_dangling_user_message. exact asked_is_reachable.
Defined.

Lemma alternation_at_asked :
  reachable None (asked None)
  /\ (exists n, senders (messages (asked None)) = exchanges n
                \/ senders (messages (asked None)) = exchanges n ++ [user])
  /\ forall e s',
       step None e (asked None) = Some s' ->
       messages s' = messages (asked None)
       \/ exists m, messages s' = messages (asked None) ++ [m]
                    /\ sender m <> last (senders (messages (asked None))) ai.
Proof.
  split.
  - exact asked_is_reachable.
  - apply transcript_alternates. exact asked_is_reachable.
Defined.

(** ** Where two sentences of the specification go too far *)

(** C2 as it is stated: the body [{ "answer": "" }] has an answer field,
    and the message appended does not carry its value. *)
Lemma empty_answer_is_not_echoed :
  ok empty_answer_response = true
  /\ json empty_answer_response =
       Fulfilled (JObject [(js "answer", JString (js ""))])
  /\ Js.lookup (js "answer") [(js "answer", JString (js ""))] =
       Some (JString (js ""))
  /\ messages (snd (handleSendMessage_resume (Fulfilled empty_answer_response)
                      2000 (asked None))) <>
     messages (asked None) ++ [mkMessage (JString (js "")) ai 2000].
Proof.
  repeat split. intro H. vm_compute in H. discriminate H.
Qed.

(** C5 as it is stated: the body [null] has no answer field, reading
    [.answer] on it throws, and the message appended is the error notice,
    not the fallback notice. *)
Lemma null_body_gets_error_notice :
  ok null_response = true
  /\ json null_response = Fulfilled JNull
  /\ Js.has_field (js "answer") JNull = false
  /\ messages (snd (handleSendMessage_resume (Fulfilled null_response)
                      2000 (asked None))) =
     messages (asked None) ++
     [mkMessage
        (JString (js "Sorry, there was an error processing your request. Please try again."))
        ai 2000]
  /\ messages (snd (handleSendMessage_resume (Fulfilled null_response)
                      2000 (asked None))) <>
     messages (asked None) ++
     [mkMessage (JString (js "Sorry, I could not process your request.")) ai 2000].
Proof.
  repeat split. intro H. vm_compute in H. discriminate H.
Qed.

(** ** The further properties at the scenarios *)

Lemma html_body_at_asked :
  ok html_response = true
  /\ snd (handleSendMessage_resume (Fulfilled html_response) 2000 (asked None)) =
     mkSession
       [mkMessage (JString question) user 1000;
        mkMessage
          (JString (js "Sorry, there was an error processing your request. Please try again."))
          ai 2000]
       (js "") false false
       [ping_request None; chat_request None question]
       [console_error_line (js "Error:")
          (mkError (js "SyntaxError")
             (js "Unexpected token < in JSON at position 0"))]
       1 1.
Proof.
  split.
  - reflexivity.
  - rewrite (@body_that_is_not_json_gets_error_notice (asked None) html_response
               2000 _ eq_refl eq_refl).
    reflexivity.
Defined.


Lemma in_flight_at_asked :
  reachable None (asked None)
  /\ (awaiting_handleSendMessage (asked None) <= 1)%nat
  /\ (isLoading (asked None) = true <->
      awaiting_handleSendMessage (asked None) = 1%nat).
Proof.
  split.
  - exact asked_is_reachable.
  - apply at_most_one_chat_request_in_flight with (REACT_APP_API_URL := None).
    exact asked_is_reachable.
Defined.

Lemma answered_is_reachable : reachable None (answered None).
Proof.
  exists [Change question; Send 1000; ChatSettles (Fulfilled answer_response) 2000].
  reflexivity.
Defined.

Lemma requests_at_answered :
  reachable None (answered None)
  /\ fetched (answered None) =
     ping_request None ::
     map (chat_request None) (user_questions (messages (answered None))).
Proof.
  split.
  - exact answered_is_reachable.
  - apply requests_are_the_probe_and_the_questions. exact answered_is_reachable.
Defined.

Lemma presentable_at_answered :
  reachable None (answered None)
  /\ Forall presentable (messages (answered None)).
Proof.
  split.
  - exact answered_is_reachable.
  - apply every_message_is_presentable with (REACT_APP_API_URL := None).
    exact answered_is_reachable.
Defined.

Lemma awake_stays_awake :
  isServerAwake (awake None) = true
  /\ isServerAwake
       (mkSession [mkMessage (JString question) user 1000] (js "") true true
          [ping_request None; chat_request None question]
          [console_log_line (js "Server is awake")] 0 1) = true.
Proof.
  split.
  - reflexivity.
  - apply isServerAwake_is_never_reset
      with (REACT_APP_API_URL := None) (events := [Change question; Send 1000])
           (s := awake None);
      reflexivity.
Defined.

Lemma probe_is_erased_at_asked_and_probed :
  run None
    [Change question; Send 1000; Change (js "Do I need a rain coat?");
     Send 1500; PingSettles network_error] (mounted None) =
    Some (asked_and_probed None)
  /\ exists s'',
       run None
         (filter not_PingSettles
            [Change question; Send 1000; Change (js "Do I need a rain coat?");
             Send 1500; PingSettles network_error]) (mounted None) = Some s''
       /\ messages s'' = messages (asked_and_probed None)
       /\ inputMessage s'' = inputMessage (asked_and_probed None)
       /\ isLoading s'' = isLoading (asked_and_probed None)
       /\ fetched s'' = fetched (asked_and_probed None).
Proof.
  split.
  - reflexivity.
  - apply probe_does_not_interfere. reflexivity.
Defined.

Lemma chronological_at_answered :
  StronglySorted Z.le
    (clock [Change question; Send 1000;
            ChatSettles (Fulfilled answer_response) 2000])
  /\ StronglySorted Z.le (map timestamp (messages (answered None))).
Proof.
  assert (S : StronglySorted Z.le
                (clock [Change question; Send 1000;
                        ChatSettles (Fulfilled answer_response) 2000])).
  { simpl. repeat (constructor; try lia). }
  split.
  - exact S.
  - apply transcript_is_chronological
      with (REACT_APP_API_URL := None)
           (events := [Change question; Send 1000;
                       ChatSettles (Fulfilled answer_response) 2000]).
    + reflexivity.
    + exact S.
Defined.

Lemma rain_coat_at_answered :
  In (js "Do I need a rain coat?") suggestions
  /\ run None [Change (js "Do I need a rain coat?"); Send 3000] (answered None) =
     Some (mkSession
             [mkMessage (JString question) user 1000;
              mkMessage (JString (js "Bring wool or synthetic layers.")) ai 2000;
              mkMessage (JString (js "Do I need a rain coat?")) user 3000]
             (js "") true false
             [ping_request None; chat_request None question;
              chat_request None (js "Do I need a rain coat?")]
             [] 1 1).
Proof.
  assert (I : In (js "Do I need a rain coat?") suggestions).
  { right. left. reflexivity. }
  split.
  - exact I.
  - rewrite (@suggestion_then_send_posts_it None (js "Do I need a rain coat?")
               (answered None) 3000 I eq_refl).
    reflexivity.
Defined.


Lemma list_items_at_typed :
  step None (Send 1000) (typed None) = Some (asked None)
  /\ map item_key (list_items (render (fun _ => js "12:00:00 PM") (typed None))) =
     seq 0 (List.length (messages (typed None)))
  /\ exists added,
       list_items (render (fun _ => js "12:00:00 PM") (asked None)) =
         list_items (render (fun _ => js "12:00:00 PM") (typed None)) ++ added
       /\ (List.length added <= 1)%nat.
Proof.
  split.
  - reflexivity.
  - apply list_items_are_stable with (REACT_APP_API_URL := None) (e := Send 1000).
    reflexivity.
Defined.

Lemma controls_at_asked :
  reachable None (asked None)
  /\ ((awaiting_handleSendMessage (asked None) = 1%nat /\
       textField_disabled (render (fun _ => js "12:00:00 PM") (asked None)) = true /\
       sendButton_disabled (render (fun _ => js "12:00:00 PM") (asked None)) = true /\
       sendButton_icon (render (fun _ => js "12:00:00 PM") (asked None)) =
         CircularProgress)
      \/
      (awaiting_handleSendMessage (asked None) = 0%nat /\
       textField_disabled (render (fun _ => js "12:00:00 PM") (asked None)) = false /\
       sendButton_icon (render (fun _ => js "12:00:00 PM") (asked None)) = SendIcon /\
       (sendButton_disabled (render (fun _ => js "12:00:00 PM") (asked None)) = true <->
        JsString.trim (inputMessage (asked None)) = JsString.empty))).
Proof.
  split.
  - exact asked_is_reachable.
  - apply controls_are_locked_while_in_flight with (REACT_APP_API_URL := None).
    exact asked_is_reachable.
Defined.

Example scenario_shift_enter :
  onKeyPress None (mkKeyboardEvent (js "Enter") true) question false 1000
    (typed None) = (inr false, typed None)
  /\ onKeyPress None (mkKeyboardEvent (js "Enter") false) question false 1000
       (typed None) = (inr true, asked None).
Proof. split; reflexivity. Qed.

Example scenario_rendered :
  render (fun _ => js "12:00:00 PM") (answered None) =
  mkView
    [mkListItem 0 (js "flex-end") (js "primary.light") (js "white")
       (plain (JString question)) (js "12:00:00 PM");
     mkListItem 1 (js "flex-start") (js "grey.100") (js "text.primary")
       (ReactMarkdown (JString (js "Bring wool or synthetic layers.")))
       (js "12:00:00 PM")]
    true (js "") false true SendIcon.
Proof. reflexivity. Qed.
